(** * MailGuardian: the inbox route [GET /api/emails]

    A shallow embedding of [src/app/api/emails/route.ts] and the properties
    of its handler: the two authentication gates, the [maxResults] limit, the
    per-message fan-out that drops failed items, and the substring-driven
    classification of a failure into an error envelope.

    Strings are Rocq strings, one character per UTF-16 code unit below 256.
    Every needle the handler searches for is ASCII. *)

From Stdlib Require Import ZArith Ascii String.
From Stdlib Require Import DecimalString DecimalNat DecimalFacts ZifyBool.
From stdpp Require Import base option list.

Open Scope string_scope.

(** ** JavaScript built-ins used by the route *)

Module Js.

(** A JavaScript number as far as the route needs it: [NaN] or an integer.
    [Num z] stands for the double nearest to [z]; the two coincide up to
    2^53, and rounding is monotone and fixes 20, so it commutes with
    [Math_min _ (Num 20)].  Negative zero is identified with zero. *)
Inductive number : Type :=
| NaN
| Num (z : Z).

(** [Math.min(a, b)]: [NaN] as soon as one argument is. *)
Definition Math_min (a b : number) : number :=
  match a, b with
  | Num x, Num y => Num (Z.min x y)
  | _, _ => NaN
  end.

(** White space and line terminators stripped by [parseInt]
    (TAB, LF, VT, FF, CR, SP, NBSP among the code units below 256). *)
Definition isWhiteSpace (c : ascii) : bool :=
  let n := nat_of_ascii c in
  ((9 <=? n) && (n <=? 13) || (n =? 32) || (n =? 160))%nat.

Fixpoint trimStart (s : string) : string :=
  match s with
  | String c rest => if isWhiteSpace c then trimStart rest else s
  | EmptyString => s
  end.

(** Value of a code unit as a digit: [0-9], then [a-z] or [A-Z] for 10..35. *)
Definition digitValue (c : ascii) : option Z :=
  let n := Z.of_nat (nat_of_ascii c) in
  if (48 <=? n)%Z && (n <=? 57)%Z then Some (n - 48)%Z
  else if (97 <=? n)%Z && (n <=? 122)%Z then Some (n - 87)%Z
  else if (65 <=? n)%Z && (n <=? 90)%Z then Some (n - 55)%Z
  else None.

(** The longest prefix of radix-[R] digits, read as an integer; [acc] is
    [None] until a first digit has been seen. *)
Fixpoint readDigits (R : Z) (s : string) (acc : option Z) : option Z :=
  match s with
  | EmptyString => acc
  | String c rest =>
      match digitValue c with
      | Some d =>
          if (d <? R)%Z
          then readDigits R rest (Some (R * default 0%Z acc + d)%Z)
          else acc
      | None => acc
      end
  end.

(** [Number.parseInt(s)] with no radix argument. *)
Definition parseInt (s : string) : number :=
  let s1 := trimStart s in
  let '(sign, s2) :=
    match s1 with
    | String "-" rest => ((-1)%Z, rest)
    | String "+" rest => (1%Z, rest)
    | _ => (1%Z, s1)
    end in
  let '(R, s3) :=
    match s2 with
    | String "0" (String "x" rest) => (16%Z, rest)
    | String "0" (String "X" rest) => (16%Z, rest)
    | _ => (10%Z, s2)
    end in
  match readDigits R s3 None with
  | None => NaN
  | Some mathInt => Num (sign * mathInt)
  end.

(** [p] is a prefix of [s]. *)
Fixpoint startsWith (s p : string) {struct p} : bool :=
  match p, s with
  | EmptyString, _ => true
  | String a p', String b s' => Ascii.eqb a b && startsWith s' p'
  | String _ _, EmptyString => false
  end.

(** [s.includes(p)]: [p] occurs in [s] at some position. *)
Fixpoint includes (s p : string) : bool :=
  startsWith s p ||
  match s with
  | EmptyString => false
  | String _ s' => includes s' p
  end.

(** [a || b] on a nullable string: the empty string and [null] are falsy. *)
Definition orElse (a : option string) (b : string) : string :=
  match a with
  | Some (String _ _ as s) => s
  | _ => b
  end.

(** [!x] is false exactly on a non-empty string. *)
Definition truthy (a : option string) : option string :=
  match a with
  | Some (String _ _ as s) => Some s
  | _ => None
  end.

End Js.

(** ** Data model *)

(** What a [catch] clause receives: an [Error] instance with its [message],
    or any other value [v] of a type [V] of thrown non-[Error] values. *)
Inductive Thrown (V : Type) : Type :=
| ThrownError (message : string)
| ThrownValue (v : V).
Arguments ThrownError {V} message.
Arguments ThrownValue {V} v.

(** How a call to a collaborator ends. *)
Inductive Completion (V T : Type) : Type :=
| Return (x : T)
| Throw (e : Thrown V).
Arguments Return {V T} x.
Arguments Throw {V T} e.

(** The session of next-auth, as far as the route reads it. *)
Record Session : Type := {
  accessToken : option string;
  refreshToken : option string;
  expiresAt : option Z;
  user_email : option string
}.

(** A message reference of the listing, [{ id }]. *)
Record MessageRef : Type := { msg_id : string }.

(** The answer of [fetchGmailMessages]; [messages] may be absent. *)
Record ListResponse : Type := { messages : option (list MessageRef) }.

(** The request: its query parameters, in order. *)
Record NextRequest : Type := { searchParams : list (string * string) }.

(** [searchParams.get(name)]: the first value under [name], or [null]. *)
Fixpoint searchParams_get (params : list (string * string)) (name : string)
  : option string :=
  match params with
  | [] => None
  | (k, v) :: rest => if String.eqb k name then Some v else searchParams_get rest name
  end.

(** JSON values occurring in a response body. *)
Inductive Json (E : Type) : Type :=
| JString (s : string)
| JNumber (z : Z)
| JArray (l : list E).
Arguments JString {E} s.
Arguments JNumber {E} z.
Arguments JArray {E} l.

(** A response: HTTP status and the fields of the JSON body, in order. *)
Record Response (E : Type) : Type := {
  status : Z;
  body : list (string * Json E)
}.
Arguments status {E} r.
Arguments body {E} r.

(** [NextResponse.json(body, init)]; the status is 200 without [init]. *)
Definition NextResponse_json {E} (b : list (string * Json E)) (init : option Z)
  : Response E :=
  {| status := default 200%Z init; body := b |}.

(** The value of a field of a JSON object, if the field is there. *)
Fixpoint field {E} (b : list (string * Json E)) (name : string) : option (Json E) :=
  match b with
  | [] => None
  | (k, v) :: rest => if String.eqb k name then Some v else field rest name
  end.

(** What the caller observes: a response, or none when the handler awaits a
    promise that never settles. *)
Inductive Outcome (E : Type) : Type :=
| Responds (r : Response E)
| Pending.
Arguments Responds {E} r.
Arguments Pending {E}.

(** Calls to the mail provider client, in the order they are issued. *)
Inductive GmailCall : Type :=
| ListCall (token : string) (maxResults : Js.number)
| GetCall (token : string) (id : string).

(** The collaborators of one request.  [settleOrder] lists the positions of
    the per-message promises in the order they settle; a position that is
    missing never settles. *)
Record Env (V D E : Type) : Type := {
  getServerSession : Completion V (option Session);
  fetchGmailMessages : string -> Js.number -> Completion V ListResponse;
  getGmailMessage : string -> string -> Completion V D;
  analyzeEmail : D -> Completion V E;
  now : string;
  settleOrder : list nat
}.
Arguments getServerSession {V D E} e.
Arguments fetchGmailMessages {V D E} e _ _.
Arguments getGmailMessage {V D E} e _ _.
Arguments analyzeEmail {V D E} e _.
Arguments now {V D E} e.
Arguments settleOrder {V D E} e.

(** ** [Promise.all] over promises that settle in any order *)

(** Each promise owns the slot at its position; settling writes the slot. *)
Definition settle {T} (values : list T) (order : list nat)
  (slots : list (option T)) : list (option T) :=
  foldl (fun slots i =>
           match values !! i with
           | Some v => <[i := Some v]> slots
           | None => slots
           end) slots order.

(** The array [Promise.all] fulfils with, in the order of the promises, once
    every slot is written; [None] while one is pending. *)
Definition Promise_all {T} (values : list T) (order : list nat) : option (list T) :=
  mapM (fun slot => slot) (settle values order (replicate (length values) None)).

(** Every position below [n] occurs in [order]. *)
Definition allSettled (order : list nat) (n : nat) : bool :=
  forallb (fun i => existsb (Nat.eqb i) order) (seq 0 n).

(** ** The handler *)

Section Handler.

Context {V D E : Type}.
Variable String_ : V -> string.

(** Computations of the [try] block: the provider calls issued so far and
    either a value or the thrown error. *)
Definition M (T : Type) : Type := (list GmailCall * Completion V T)%type.

Definition ret {T} (x : T) : M T := ([], Return x).

Definition bind {T U} (m : M T) (k : T -> M U) : M U :=
  match m with
  | (calls, Return x) => let '(calls', r) := k x in ((calls ++ calls')%list, r)
  | (calls, Throw e) => (calls, Throw e)
  end.

Local Notation "x <- m ;; k" := (bind m (fun x => k))
  (at level 100, m at next level, right associativity).

(** A collaborator call that is not logged. *)
Definition await {T} (c : Completion V T) : M T := ([], c).

(** A provider call, logged. *)
Definition call {T} (c : GmailCall) (r : Completion V T) : M T := ([c], r).

(** The [try] block of the per-message callback. *)
Definition fetchAndAnalyze (env : Env V D E) (token : string) (msg : MessageRef)
  : Completion V E :=
  match getGmailMessage env token (msg_id msg) with
  | Return messageDetail => analyzeEmail env messageDetail
  | Throw e => Throw e
  end.

(** The per-message callback: the analyzed email, or [null] ([None]) from
    its [catch]. *)
Definition emailPromise (env : Env V D E) (token : string) (msg : MessageRef)
  : option E :=
  match fetchAndAnalyze env token msg with
  | Return analyzed => Some analyzed
  | Throw _ => None
  end.

(** [results.filter((email) => email !== null)]. *)
Definition filterNonNull (results : list (option E)) : list E :=
  omap (fun email => email) results.

(** Line 38: the limit handed to the listing call. *)
Definition maxResults (request : NextRequest) : Js.number :=
  Js.Math_min
    (Js.parseInt (Js.orElse (searchParams_get (searchParams request) "maxResults") "10"))
    (Js.Num 20).

(** Lines 11-88. *)
Definition tryBlock (env : Env V D E) (request : NextRequest) : M (Outcome E) :=
  session <- await (getServerSession env) ;;
  match session with
  | None =>
      ret (Responds (NextResponse_json
        [("error", JString "Not authenticated")] (Some 401%Z)))
  | Some session =>
      match Js.truthy (accessToken session) with
      | None =>
          ret (Responds (NextResponse_json
            [("error", JString "No access token available. Please sign in again.")]
            (Some 401%Z)))
      | Some token =>
          let maxResults := maxResults request in
          messagesResponse <-
            call (ListCall token maxResults) (fetchGmailMessages env token maxResults) ;;
          match messages messagesResponse with
          | None | Some [] =>
              ret (Responds (NextResponse_json
                [("emails", JArray []);
                 ("message", JString "No emails found in your inbox.");
                 ("totalFetched", JNumber 0);
                 ("timestamp", JString (now env))] None))
          | Some msgs =>
              emailPromises <-
                (map (fun msg => GetCall token (msg_id msg)) msgs,
                 Return (map (emailPromise env token) msgs)) ;;
              match Promise_all emailPromises (settleOrder env) with
              | None => ret Pending
              | Some results =>
                  let analyzedEmails := filterNonNull results in
                  ret (Responds (NextResponse_json
                    [("emails", JArray analyzedEmails);
                     ("totalFetched", JNumber (Z.of_nat (length analyzedEmails)));
                     ("timestamp", JString (now env))] None))
              end
          end
      end
  end.

(** Lines 89-192: the [catch] clause. *)
Definition catchBlock (env : Env V D E) (error : Thrown V) : Response E :=
  let unknown :=
    NextResponse_json
      [("error", JString "Failed to fetch emails from Gmail API");
       ("code", JString "UNKNOWN_ERROR");
       ("details", JString match error with
                           | ThrownError message => message
                           | ThrownValue v => String_ v
                           end);
       ("timestamp", JString (now env))] (Some 500%Z) in
  match error with
  | ThrownError message =>
      if Js.includes message "401" then
        NextResponse_json
          [("error", JString "Gmail access token expired. Please sign out and sign in again.");
           ("code", JString "TOKEN_EXPIRED");
           ("details", JString "Your authentication token is no longer valid.");
           ("timestamp", JString (now env))] (Some 401%Z)
      else if Js.includes message "403" then
        NextResponse_json
          [("error", JString "Gmail API access denied. Make sure you granted permission to read your emails.");
           ("code", JString "PERMISSION_DENIED");
           ("details", JString "The access token doesn't have Gmail permission. Please sign out and sign in again, then allow Gmail access.");
           ("suggestion", JString "Check that you clicked 'Allow' for Gmail permissions during login.");
           ("troubleshooting", JString "1. Visit https://myaccount.google.com/permissions 2. Find MailGuardian 3. Click Remove Access 4. Sign in again");
           ("timestamp", JString (now env))] (Some 403%Z)
      else if Js.includes message "429" then
        NextResponse_json
          [("error", JString "Gmail API rate limit exceeded. Please try again in a few minutes.");
           ("code", JString "RATE_LIMITED");
           ("timestamp", JString (now env))] (Some 429%Z)
      else if Js.includes message "400" then
        NextResponse_json
          [("error", JString "Invalid request to Gmail API.");
           ("code", JString "BAD_REQUEST");
           ("details", JString message);
           ("timestamp", JString (now env))] (Some 400%Z)
      else if Js.includes message "500" || Js.includes message "5" then
        NextResponse_json
          [("error", JString "Gmail API server error. Please try again in a few minutes.");
           ("code", JString "SERVER_ERROR");
           ("timestamp", JString (now env))] (Some 503%Z)
      else unknown
  | ThrownValue _ => unknown
  end.

(** [export async function GET(request)]: the provider calls it issues and
    what the caller observes. *)
Definition GET (env : Env V D E) (request : NextRequest)
  : list GmailCall * Outcome E :=
  match tryBlock env request with
  | (calls, Return outcome) => (calls, outcome)
  | (calls, Throw error) => (calls, Responds (catchBlock env error))
  end.

End Handler.

(** How many of the per-message operations throw. *)
Definition throws {V T} (c : Completion V T) : bool :=
  match c with
  | Throw _ => true
  | Return _ => false
  end.

Definition throwCount {V D E} (env : Env V D E) (token : string)
  (msgs : list MessageRef) : nat :=
  length (List.filter (fun msg => throws (fetchAndAnalyze env token msg)) msgs).

(** The limit of the listing call, when the first provider call is one. *)
Definition listingLimit (calls : list GmailCall) : option Js.number :=
  match calls with
  | ListCall _ limit :: _ => Some limit
  | _ => None
  end.

(** The raw [maxResults] query parameter. *)
Definition requested (request : NextRequest) : option string :=
  searchParams_get (searchParams request) "maxResults".

(** ** A concrete instance *)

(** Thrown values that are not [Error] instances: the primitives, with
    their [String(v)]. *)
Inductive Prim : Type :=
| PUndefined
| PNull
| PBool (b : bool)
| PString (s : string).

Definition Prim_String (v : Prim) : string :=
  match v with
  | PUndefined => "undefined"
  | PNull => "null"
  | PBool true => "true"
  | PBool false => "false"
  | PString s => s
  end.

Record Analyzed : Type := { subject : string; trustScore : Z }.

Definition demoSession (token : option string) : Session :=
  {| accessToken := token; refreshToken := None; expiresAt := None;
     user_email := Some "user@example.com" |}.

(** A provider whose detail call fails on the ids containing ["x"] and whose
    analyzer fails on the details containing ["?"]. *)
Definition demoEnv (session : Completion Prim (option Session))
  (listing : Completion Prim ListResponse) (order : list nat)
  : Env Prim string Analyzed :=
  {| getServerSession := session;
     fetchGmailMessages := fun _ _ => listing;
     getGmailMessage := fun _ id =>
       if Js.includes id "x"
       then Throw (ThrownError "Gmail API error: 404 Not Found")
       else Return ("Subject: " ++ id);
     analyzeEmail := fun detail =>
       if Js.includes detail "?"
       then Throw (ThrownError "Cannot read properties of undefined")
       else Return {| subject := detail; trustScore := 80 |};
     now := "2024-05-01T10:00:00.000Z";
     settleOrder := order |}.

Definition demoToken : string := "ya29.a0".

Definition signedIn : Completion Prim (option Session) :=
  Return (Some (demoSession (Some demoToken))).

Definition demoListing : list MessageRef :=
  [ {| msg_id := "a1" |}; {| msg_id := "x2" |}; {| msg_id := "b3" |};
    {| msg_id := "c?" |}; {| msg_id := "d5" |} ].

Definition demoRequest (maxResults : option string) : NextRequest :=
  {| searchParams :=
       match maxResults with
       | Some v => [("q", "inbox"); ("maxResults", v)]
       | None => [("q", "inbox")]
       end |}.

(** Five references; the second fails in the detail call, the fourth in the
    analyzer.  The operations settle in the order 4th, 1st, 5th, 3rd, 2nd. *)
Definition demoFanOut : Env Prim string Analyzed :=
  demoEnv signedIn (Return {| messages := Some demoListing |}) [3; 0; 4; 2; 1].

Definition demoEmpty : Env Prim string Analyzed :=
  demoEnv signedIn (Return {| messages := Some [] |}) [].

Definition demoNoSession : Env Prim string Analyzed :=
  demoEnv (Return None) (Return {| messages := None |}) [].

Definition demoNoToken : Env Prim string Analyzed :=
  demoEnv (Return (Some (demoSession (Some "")))) (Return {| messages := None |}) [].

(** A listing call that throws [error]. *)
Definition demoFailing (error : Thrown Prim) : Env Prim string Analyzed :=
  demoEnv signedIn (Throw error) [].

(** ** Notions used to state further properties *)

(** The decimal numeral of [n], as it is written in a query string. *)
Definition decimal (n : nat) : string := NilEmpty.string_of_uint (Nat.to_uint n).

Definition isDecimalDigit (c : ascii) : bool :=
  let n := nat_of_ascii c in ((48 <=? n) && (n <=? 57))%nat.

(** What may follow a decimal numeral without changing what [parseInt]
    reads: nothing, or text that starts with neither a digit nor the [x] of
    a hexadecimal prefix. *)
Definition endsNumeral (rest : string) : bool :=
  match rest with
  | EmptyString => true
  | String c _ =>
      negb (isDecimalDigit c) && negb (Ascii.eqb c "x") && negb (Ascii.eqb c "X")
  end.

(** A first character after which [parseInt] may still find a number. *)
Definition startsNumeral (c : ascii) : bool :=
  Js.isWhiteSpace c || Ascii.eqb c "-" || Ascii.eqb c "+" || isDecimalDigit c.

(** The rows of the [catch] clause: the code of an error envelope and the
    status sent with it. *)
Definition errorTable : list (string * Z) :=
  [("TOKEN_EXPIRED", 401%Z); ("PERMISSION_DENIED", 403%Z); ("RATE_LIMITED", 429%Z);
   ("BAD_REQUEST", 400%Z); ("SERVER_ERROR", 503%Z); ("UNKNOWN_ERROR", 500%Z)].

(** The same collaborators with the per-message operations settling in
    another order. *)
Definition withSettleOrder {V D E} (env : Env V D E) (order : list nat) : Env V D E :=
  {| getServerSession := getServerSession env;
     fetchGmailMessages := fetchGmailMessages env;
     getGmailMessage := getGmailMessage env;
     analyzeEmail := analyzeEmail env;
     now := now env;
     settleOrder := order |}.

(** The session passes both authentication gates with [token]. *)
Definition signedInAs {V D E} (env : Env V D E) (token : string) : Prop :=
  exists session,
    getServerSession env = Return (Some session) /\
    Js.truthy (accessToken session) = Some token.

(** Session resolution itself throws [error]. *)
Definition demoSessionFails (error : Thrown Prim) : Env Prim string Analyzed :=
  demoEnv (Throw error) (Return {| messages := None |}) [].

(** The five-message listing when the second operation never settles. *)
Definition demoStuck : Env Prim string Analyzed :=
  demoEnv signedIn (Return {| messages := Some demoListing |}) [3; 0; 4; 2].

Definition demoAnswer : Response Analyzed :=
  {| status := 200;
     body :=
       [("emails",
         JArray [ {| subject := "Subject: a1"; trustScore := 80 |};
                  {| subject := "Subject: b3"; trustScore := 80 |};
                  {| subject := "Subject: d5"; trustScore := 80 |} ]);
        ("totalFetched", JNumber 3);
        ("timestamp", JString "2024-05-01T10:00:00.000Z")] |}.

(** ** Properties of the built-ins *)

Lemma startsWith_app (s p : string) :
  Js.startsWith s p = true <-> exists post, s = p ++ post.
Proof.
  revert s; induction p as [|a p IH]; intros s; simpl.
  - split; [intros _; by exists s | done].
  - destruct s as [|b s].
    + split; [done | intros [post H]; discriminate].
    + rewrite andb_true_iff, IH, Ascii.eqb_eq. split.
      * intros [-> [post ->]]. by exists post.
      * intros [post H]. injection H as -> ->. eauto.
Qed.

(** [includes] decides the occurrence of [p] as a substring of [s]. *)
Lemma includes_substring (s p : string) :
  Js.includes s p = true <-> exists pre post, s = pre ++ p ++ post.
Proof.
  induction s as [|c s IH]; simpl.
  - rewrite orb_false_r, startsWith_app. split.
    + intros [post H]. by exists "", post.
    + intros [[|c pre] [post H]]; [by exists post | discriminate].
  - rewrite orb_true_iff, startsWith_app, IH. split.
    + intros [[post H] | (pre & post & ->)].
      * by exists "", post.
      * by exists (String c pre), post.
    + intros [[|c' pre] [post H]].
      * left. by exists post.
      * right. injection H as -> ->. by exists pre, post.
Qed.

(** An occurrence of a longer needle contains one of each of its parts. *)
Lemma includes_500_5 (s : string) :
  Js.includes s "500" = true -> Js.includes s "5" = true.
Proof.
  rewrite !includes_substring. intros (pre & post & ->).
  by exists pre, ("00" ++ post).
Qed.

Lemma Math_min_20 (a : Js.number) (z : Z) :
  Js.Math_min a (Js.Num 20) = Js.Num z -> (z <= 20)%Z.
Proof. destruct a; simpl; [done | intros [= <-]; lia]. Qed.

(** ** [parseInt] on the shapes a query parameter takes *)

Lemma readDigits_stop (rest : string) (acc : option Z) :
  endsNumeral rest = true -> Js.readDigits 10 rest acc = acc.
Proof.
  destruct rest as [|c rest]; [done |]. cbn [endsNumeral Js.readDigits].
  unfold isDecimalDigit, Js.digitValue. intros H.
  apply andb_prop in H as [H _]. apply andb_prop in H as [H _].
  apply negb_true_iff in H.
  set (n := nat_of_ascii c) in *.
  destruct (48 <=? n)%nat eqn:H1, (n <=? 57)%nat eqn:H2; try discriminate H.
  all: repeat match goal with
  | |- context [if ?b then _ else _] => destruct b eqn:?
  end; try reflexivity; lia.
Qed.

Lemma readDigits_uint (d : Decimal.uint) (rest : string) (a : nat) :
  endsNumeral rest = true ->
  Js.readDigits 10 (NilEmpty.string_of_uint d ++ rest) (Some (Z.of_nat a))
  = Some (Z.of_nat (Nat.of_uint_acc d a)).
Proof.
  intros Hrest. revert a.
  induction d as [|d IH|d IH|d IH|d IH|d IH|d IH|d IH|d IH|d IH|d IH]; intros a;
    [by apply readDigits_stop | ..];
    cbn [NilEmpty.string_of_uint append Nat.of_uint_acc];
    rewrite Nat.tail_mul_spec, <- IH; cbn [Js.readDigits];
    (match goal with |- context [Js.digitValue ?c] =>
       let v := eval vm_compute in (Js.digitValue c) in
       change (Js.digitValue c) with v end);
    cbn [Z.ltb Z.compare Pos.compare Pos.compare_cont default];
    unfold id; do 2 f_equal; lia.
Qed.

Lemma readDigits_first (d : Decimal.uint) (rest : string) :
  d <> Decimal.Nil ->
  Js.readDigits 10 (NilEmpty.string_of_uint d ++ rest) None
  = Js.readDigits 10 (NilEmpty.string_of_uint d ++ rest) (Some 0%Z).
Proof. destruct d; [done | reflexivity ..]. Qed.

Lemma to_uint_nonnil (n : nat) : Nat.to_uint n <> Decimal.Nil.
Proof.
  rewrite <- (Unsigned.of_to n) at 1. rewrite Unsigned.to_of. apply unorm_nonnil.
Qed.

Lemma parseInt_decimal (n : nat) (rest : string) :
  endsNumeral rest = true ->
  Js.parseInt (decimal n ++ rest) = Js.Num (Z.of_nat n).
Proof.
  intros Hrest. unfold decimal.
  pose proof (to_uint_nonnil n) as Hnil.
  pose proof (readDigits_first _ rest Hnil) as Hfirst.
  rewrite (readDigits_uint _ rest 0 Hrest) in Hfirst.
  change (Nat.of_uint_acc (Nat.to_uint n) 0) with (Nat.of_uint (Nat.to_uint n)) in Hfirst.
  rewrite Unsigned.of_to in Hfirst.
  assert (forall z, (1 * z)%Z = z) as Hone by (intros; lia).
  unfold Js.parseInt.
  destruct (Nat.to_uint n) as [|d|d|d|d|d|d|d|d|d|d]; [done | ..];
    cbn [NilEmpty.string_of_uint append Js.trimStart] in *;
    change (Js.isWhiteSpace _) with false; cbv beta iota zeta.
  2-10: by rewrite Hfirst, Hone.
  destruct d; cbn [NilEmpty.string_of_uint append] in *; cbv beta iota zeta.
  2-11: by rewrite Hfirst, Hone.
  destruct rest as [|c rest]; [by rewrite Hfirst, Hone |].
  destruct c as [[] [] [] [] [] [] [] []];
    try discriminate Hrest; cbv beta iota zeta; by rewrite Hfirst, Hone.
Qed.


Lemma parseInt_NaN (c : ascii) (rest : string) :
  startsNumeral c = false -> Js.parseInt (String c rest) = Js.NaN.
Proof.
  intros H. unfold startsNumeral in H.
  destruct c as [[] [] [] [] [] [] [] []]; try discriminate H; reflexivity.
Qed.

(** ** Properties of the fan-out *)

Section FanOut.

Context {T : Type}.
Implicit Types (values : list T) (slots : list (option T)) (order : list nat).

Lemma settle_length values order slots :
  length (settle values order slots) = length slots.
Proof.
  unfold settle. revert slots.
  induction order as [|j order IH]; intros slots; simpl; [done |].
  rewrite IH. destruct (values !! j); [apply length_insert | done].
Qed.

(** A slot holds its promise's value once its position has settled, and
    what it held before otherwise. *)
Lemma settle_lookup values order slots i v :
  length slots = length values ->
  values !! i = Some v ->
  settle values order slots !! i
  = if decide (i ∈ order) then Some (Some v) else slots !! i.
Proof.
  intros Hlen Hi. unfold settle. revert slots Hlen.
  induction order as [|j order IH]; intros slots Hlen; cbn [foldl].
  - case_decide as Hin; [by apply elem_of_nil in Hin | done].
  - rewrite IH by (destruct (values !! j); [by rewrite length_insert | done]).
    destruct (decide (i ∈ order)) as [Hin | Hnin].
    + rewrite decide_True by (by right). done.
    + destruct (decide (i = j)) as [-> | Hne].
      * rewrite decide_True by left. rewrite Hi.
        apply list_lookup_insert_eq. rewrite Hlen. by eapply lookup_lt_Some.
      * rewrite decide_False by (intros [?|?]%elem_of_cons; done).
        destruct (values !! j); [by apply list_lookup_insert_ne | done].
Qed.

Lemma allSettled_elem_of order n i :
  allSettled order n = true -> i < n -> i ∈ order.
Proof.
  unfold allSettled. rewrite forallb_forall. intros Hall Hi.
  specialize (Hall i). rewrite in_seq, existsb_exists in Hall.
  destruct Hall as (j & Hj & ->%Nat.eqb_eq); [lia |].
  by apply list_elem_of_In.
Qed.

(** Once all positions have settled, [Promise.all] yields the values in the
    order of the promises, whatever the order of settlement. *)
Lemma Promise_all_settled values order :
  allSettled order (length values) = true ->
  Promise_all values order = Some values.
Proof.
  intros Hall. unfold Promise_all. apply mapM_Some.
  apply Forall2_same_length_lookup. split.
  - by rewrite settle_length, length_replicate.
  - intros i slot v Hslot Hv.
    rewrite (settle_lookup _ _ _ _ v) in Hslot;
      [| by rewrite length_replicate | done].
    rewrite decide_True in Hslot; [congruence |].
    eapply allSettled_elem_of; [done | by eapply lookup_lt_Some].
Qed.

(** While a position has not settled, [Promise.all] stays pending. *)
Lemma Promise_all_pending values order i :
  i < length values -> i ∉ order -> Promise_all values order = None.
Proof.
  intros Hi Hnin. destruct (Promise_all values order) as [k|] eqn:Hk; [| done].
  unfold Promise_all in Hk. apply mapM_Some_1 in Hk.
  destruct (lookup_lt_is_Some_2 values i Hi) as [v Hv].
  pose proof (settle_lookup values order (replicate (length values) None) i v
                (length_replicate _ _) Hv) as Hs.
  rewrite decide_False, lookup_replicate_2 in Hs by done.
  destruct (Forall2_lookup_l _ _ _ _ _ Hk Hs) as (y & _ & [=]).
Qed.

End FanOut.

Lemma forallb_counterexample {A} (f : A -> bool) (l : list A) :
  forallb f l = false -> exists x, In x l /\ f x = false.
Proof.
  induction l as [|x l IH]; [done |]. cbn [forallb].
  destruct (f x) eqn:Hx; cbn.
  - intros (y & Hy & Hf)%IH. exists y. by split; [right |].
  - intros _. exists x. by split; [left |].
Qed.

Lemma allSettled_false order n :
  allSettled order n = false -> exists i, i < n /\ i ∉ order.
Proof.
  unfold allSettled. intros (i & Hi%in_seq & Hf)%forallb_counterexample.
  exists i. split; [lia |]. intros Hin%list_elem_of_In.
  assert (existsb (Nat.eqb i) order = true) as Ht; [| congruence].
  apply existsb_exists. exists i. split; [done | apply Nat.eqb_refl].
Qed.

(** ** Properties of the handler *)

Section Properties.

Context {V D E : Type} (String_ : V -> string).
Implicit Types (env : Env V D E) (request : NextRequest) (session : Session).
Implicit Types (token message : string) (msgs : list MessageRef).

(** Past the two authentication gates the handler issues the listing call
    with [maxResults request], and everything else follows from how that
    call ends. *)
Lemma GET_signed_in env request session token :
  getServerSession env = Return (Some session) ->
  Js.truthy (accessToken session) = Some token ->
  GET String_ env request =
  let listCall := ListCall token (maxResults request) in
  match fetchGmailMessages env token (maxResults request) with
  | Throw error => ([listCall], Responds (catchBlock String_ env error))
  | Return messagesResponse =>
      match messages messagesResponse with
      | None | Some [] =>
          ([listCall],
           Responds (NextResponse_json
             [("emails", JArray []);
              ("message", JString "No emails found in your inbox.");
              ("totalFetched", JNumber 0);
              ("timestamp", JString (now env))] None))
      | Some msgs =>
          (listCall :: map (fun msg => GetCall token (msg_id msg)) msgs,
           match Promise_all (map (emailPromise env token) msgs) (settleOrder env) with
           | None => Pending
           | Some results =>
               Responds (NextResponse_json
                 [("emails", JArray (filterNonNull results));
                  ("totalFetched", JNumber (Z.of_nat (length (filterNonNull results))));
                  ("timestamp", JString (now env))] None)
           end)
      end
  end.
Proof.
  intros Hsession Htoken. unfold GET, tryBlock, await, call, bind, ret.
  rewrite Hsession, Htoken. cbv zeta.
  destruct (fetchGmailMessages env token (maxResults request))
    as [[[[|msg msgs]|]]|error]; try reflexivity.
  cbn [messages].
  destruct (Promise_all (T := option E) _ _); by rewrite app_nil_r.
Qed.

(** The [try] block throws exactly what session resolution or the listing
    call throws. *)
Lemma tryBlock_throws env request error :
  (tryBlock env request).2 = Throw error <->
  getServerSession env = Throw error \/
  exists session token,
    getServerSession env = Return (Some session) /\
    Js.truthy (accessToken session) = Some token /\
    fetchGmailMessages env token (maxResults request) = Throw error.
Proof.
  unfold tryBlock, await, call, bind, ret.
  destruct (getServerSession env) as [[session|]|e] eqn:Hsession; cbn.
  - destruct (Js.truthy (accessToken session)) as [token|] eqn:Htoken; cbn.
    + destruct (fetchGmailMessages env token (maxResults request))
        as [[[[|msg msgs]|]]|e] eqn:Hlist; cbn.
      * split; [done | intros [[=] | (? & ? & [= <-] & ? & ?)]; congruence].
      * destruct (Promise_all (T := option E) _ _); cbn;
          (split; [done | intros [[=] | (? & ? & [= <-] & ? & ?)]; congruence]).
      * split; [done | intros [[=] | (? & ? & [= <-] & ? & ?)]; congruence].
      * split.
        -- intros [= <-]. right. by exists session, token.
        -- intros [[=] | (? & ? & [= <-] & ? & ?)]; congruence.
    + split; [done | intros [[=] | (? & ? & [= <-] & ? & ?)]; congruence].
  - split; [done | intros [[=] | (? & ? & [=] & _)]].
  - split; [intros [= <-]; by left | intros [[= <-] | (? & ? & [=] & _)]; done].
Qed.

Lemma GET_catch env request error :
  (tryBlock env request).2 = Throw error ->
  (GET String_ env request).2 = Responds (catchBlock String_ env error).
Proof.
  unfold GET. destruct (tryBlock env request) as [calls [outcome|e]]; cbn;
    [done | by intros [= <-]].
Qed.

(** Dropped entries are exactly the operations that threw. *)
Lemma length_survivors env token msgs :
  length (filterNonNull (map (emailPromise env token) msgs))
  = length msgs - throwCount env token msgs.
Proof.
  unfold filterNonNull, throwCount, omap.
  assert (length (list_omap _ _ (fun email => email) (map (emailPromise env token) msgs))
          + length (List.filter (fun msg => throws (fetchAndAnalyze env token msg)) msgs)
          = length msgs) as H; [| lia].
  induction msgs as [|msg msgs IH]; [done |].
  cbn [map List.filter]. unfold emailPromise at 1.
  destruct (fetchAndAnalyze env token msg); simpl in *; lia.
Qed.

(** The surviving entries are the analyses of the messages whose operation
    returned, taken in the order of the listing. *)
Lemma survivors_in_order env token msgs :
  Forall2 (fun msg email => fetchAndAnalyze env token msg = Return email)
    (List.filter (fun msg => negb (throws (fetchAndAnalyze env token msg))) msgs)
    (filterNonNull (map (emailPromise env token) msgs)).
Proof.
  unfold filterNonNull, omap.
  induction msgs as [|msg msgs IH]; [constructor |].
  cbn [map List.filter]. unfold emailPromise at 1.
  destruct (fetchAndAnalyze env token msg) eqn:Hmsg; simpl;
    [by constructor | done].
Qed.

Lemma GET_no_session env request :
  getServerSession env = Return None ->
  GET String_ env request
  = ([], Responds (NextResponse_json [("error", JString "Not authenticated")]
                     (Some 401%Z))).
Proof.
  intros Hsession. unfold GET, tryBlock, await, bind, ret. by rewrite Hsession.
Qed.

Lemma GET_no_token env request session :
  getServerSession env = Return (Some session) ->
  Js.truthy (accessToken session) = None ->
  GET String_ env request
  = ([], Responds (NextResponse_json
       [("error", JString "No access token available. Please sign in again.")]
       (Some 401%Z))).
Proof.
  intros Hsession Htoken. unfold GET, tryBlock, await, bind, ret.
  by rewrite Hsession, Htoken.
Qed.

(** Rewrites the handler into the listing call's continuation. *)
Ltac signed_in Hsession Htoken Hlist :=
  rewrite (GET_signed_in _ _ _ _ Hsession Htoken); cbv zeta; rewrite Hlist.

(** C1: when the listing returns N message references and exactly K of the
    per-message fetch-and-analyze operations throw, the handler answers with
    status 200, [emails] of length N-K and [totalFetched] = N-K, whatever
    the order in which the operations settle. *)
Theorem partial_failure_is_dropped env request session token msgs (N K : nat) :
  getServerSession env = Return (Some session) ->
  Js.truthy (accessToken session) = Some token ->
  fetchGmailMessages env token (maxResults request)
  = Return {| messages := Some msgs |} ->
  allSettled (settleOrder env) (length msgs) = true ->
  length msgs = N ->
  throwCount env token msgs = K ->
  K <= N /\
  exists r emails,
    (GET String_ env request).2 = Responds r /\
    status r = 200%Z /\
    field (body r) "emails" = Some (JArray emails) /\
    length emails = N - K /\
    field (body r) "totalFetched" = Some (JNumber (Z.of_nat (N - K))) /\
    field (body r) "error" = None.
Proof.
  intros Hsession Htoken Hlist Hall <- <-. split.
  { unfold throwCount. apply filter_length_le. }
  signed_in Hsession Htoken Hlist. cbn [messages].
  destruct msgs as [|msg msgs].
  - eexists _, []. by repeat split.
  - rewrite Promise_all_settled by (by rewrite length_map).
    rewrite length_survivors.
    eexists _, _. by repeat split; [apply length_survivors].
Qed.

(** C2, as the handler computes it: the limit passed to the listing call is
    at most 20 whenever it is a number; requesting 1000 yields 20, omitting
    the parameter or leaving it empty yields the default 10, and requesting
    0 yields 0. *)
Theorem maxResults_clamped env request session token :
  getServerSession env = Return (Some session) ->
  Js.truthy (accessToken session) = Some token ->
  exists limit,
    listingLimit (GET String_ env request).1 = Some limit /\
    (forall z, limit = Js.Num z -> (z <= 20)%Z) /\
    (requested request = Some "1000" -> limit = Js.Num 20) /\
    (requested request = None -> limit = Js.Num 10) /\
    (requested request = Some "" -> limit = Js.Num 10) /\
    (requested request = Some "0" -> limit = Js.Num 0).
Proof.
  intros Hsession Htoken. exists (maxResults request). split.
  { rewrite (GET_signed_in _ _ _ _ Hsession Htoken). cbv zeta.
    destruct (fetchGmailMessages env token (maxResults request))
      as [[[[|msg msgs]|]]|error]; reflexivity. }
  unfold requested, maxResults. split; [intros z; apply Math_min_20 |].
  repeat split; intros ->; reflexivity.
Qed.

(** C3: an [Error] thrown by the listing step whose message contains "5"
    and none of "401", "403", "429", "400" is answered with code
    SERVER_ERROR and status 503. *)
Theorem bare_5_is_server_error env request session token message :
  getServerSession env = Return (Some session) ->
  Js.truthy (accessToken session) = Some token ->
  fetchGmailMessages env token (maxResults request) = Throw (ThrownError message) ->
  Js.includes message "5" = true ->
  Js.includes message "401" = false ->
  Js.includes message "403" = false ->
  Js.includes message "429" = false ->
  Js.includes message "400" = false ->
  exists r,
    (GET String_ env request).2 = Responds r /\
    status r = 503%Z /\
    field (body r) "code" = Some (JString "SERVER_ERROR").
Proof.
  intros Hsession Htoken Hlist H5 H401 H403 H429 H400.
  signed_in Hsession Htoken Hlist. unfold catchBlock.
  rewrite H401, H403, H429, H400, H5, orb_true_r.
  eexists. by repeat split.
Qed.

(** C4: an [Error] thrown by the listing step whose message contains both
    "401" and "403" is answered by the 401 branch: status 401 and code
    TOKEN_EXPIRED. *)
Theorem first_match_wins_401 env request session token message :
  getServerSession env = Return (Some session) ->
  Js.truthy (accessToken session) = Some token ->
  fetchGmailMessages env token (maxResults request) = Throw (ThrownError message) ->
  Js.includes message "401" = true ->
  Js.includes message "403" = true ->
  exists r,
    (GET String_ env request).2 = Responds r /\
    status r = 401%Z /\
    field (body r) "code" = Some (JString "TOKEN_EXPIRED").
Proof.
  intros Hsession Htoken Hlist H401 _.
  signed_in Hsession Htoken Hlist. unfold catchBlock. rewrite H401.
  eexists. by repeat split.
Qed.

(** C5: the entries of [emails] are the analyses of the messages whose
    operation returned, in the order of the listing, whatever the order in
    which the concurrent operations settle. *)
Theorem emails_in_listing_order env request session token msgs :
  getServerSession env = Return (Some session) ->
  Js.truthy (accessToken session) = Some token ->
  fetchGmailMessages env token (maxResults request)
  = Return {| messages := Some msgs |} ->
  allSettled (settleOrder env) (length msgs) = true ->
  exists r emails,
    (GET String_ env request).2 = Responds r /\
    field (body r) "emails" = Some (JArray emails) /\
    Forall2 (fun msg email => fetchAndAnalyze env token msg = Return email)
      (List.filter (fun msg => negb (throws (fetchAndAnalyze env token msg))) msgs)
      emails.
Proof.
  intros Hsession Htoken Hlist Hall.
  signed_in Hsession Htoken Hlist. cbn [messages].
  destruct msgs as [|msg msgs].
  - eexists _, []. repeat split. constructor.
  - rewrite Promise_all_settled by (by rewrite length_map).
    eexists _, _. repeat split. apply survivors_in_order.
Qed.

(** C6: an empty or absent message list is answered with status 200,
    [emails = []], [totalFetched = 0] and a [message] field, and carries
    neither [error] nor [code]. *)
Theorem empty_listing_succeeds env request session token messagesResponse :
  getServerSession env = Return (Some session) ->
  Js.truthy (accessToken session) = Some token ->
  fetchGmailMessages env token (maxResults request) = Return messagesResponse ->
  messages messagesResponse = None \/ messages messagesResponse = Some [] ->
  exists r explanation,
    (GET String_ env request).2 = Responds r /\
    status r = 200%Z /\
    field (body r) "emails" = Some (JArray []) /\
    field (body r) "totalFetched" = Some (JNumber 0) /\
    field (body r) "message" = Some (JString explanation) /\
    field (body r) "error" = None /\
    field (body r) "code" = None.
Proof.
  intros Hsession Htoken Hlist Hempty.
  signed_in Hsession Htoken Hlist.
  destruct Hempty as [-> | ->]; eexists _, _; by repeat split.
Qed.

(** C7: an [Error] thrown by the listing step whose message contains "403"
    and not "401" is answered with status 403 and code PERMISSION_DENIED. *)
Theorem forbidden_is_permission_denied env request session token message :
  getServerSession env = Return (Some session) ->
  Js.truthy (accessToken session) = Some token ->
  fetchGmailMessages env token (maxResults request) = Throw (ThrownError message) ->
  Js.includes message "403" = true ->
  Js.includes message "401" = false ->
  exists r,
    (GET String_ env request).2 = Responds r /\
    status r = 403%Z /\
    field (body r) "code" = Some (JString "PERMISSION_DENIED").
Proof.
  intros Hsession Htoken Hlist H403 H401.
  signed_in Hsession Htoken Hlist. unfold catchBlock. rewrite H401, H403.
  eexists. by repeat split.
Qed.

(** C8: when session resolution returns null the handler answers with
    status 401 and a body that has an [error] field and no [code] field. *)
Theorem no_session_unauthenticated env request :
  getServerSession env = Return None ->
  exists r,
    (GET String_ env request).2 = Responds r /\
    status r = 401%Z /\
    is_Some (field (body r) "error") /\
    field (body r) "code" = None.
Proof.
  intros Hsession. rewrite (GET_no_session _ _ Hsession).
  eexists. by repeat split.
Qed.

(** C9: with a session whose access credential is absent or empty the
    handler answers with status 401, no [code] field, and an [error] message
    that no answer to a request without session carries. *)
Theorem missing_token_unauthenticated env request session :
  getServerSession env = Return (Some session) ->
  accessToken session = None \/ accessToken session = Some "" ->
  exists r message,
    (GET String_ env request).2 = Responds r /\
    status r = 401%Z /\
    field (body r) "code" = None /\
    field (body r) "error" = Some (JString message) /\
    forall env' request' r',
      getServerSession env' = Return None ->
      (GET String_ env' request').2 = Responds r' ->
      field (body r') "error" <> Some (JString message).
Proof.
  intros Hsession Htoken.
  rewrite (GET_no_token _ _ _ Hsession) by (by destruct Htoken as [-> | ->]).
  eexists _, _. repeat split.
  intros env' request' r' Hnone. rewrite (GET_no_session _ _ Hnone).
  by intros [= <-].
Qed.

(** C10: when the [try] block throws a value that is not an [Error]
    instance, no substring is looked for: the handler answers with code
    UNKNOWN_ERROR, status 500 and [details] the string conversion of the
    value. *)
Theorem non_error_is_unknown env request (v : V) :
  (tryBlock env request).2 = Throw (ThrownValue v) ->
  exists r,
    (GET String_ env request).2 = Responds r /\
    status r = 500%Z /\
    field (body r) "code" = Some (JString "UNKNOWN_ERROR") /\
    field (body r) "details" = Some (JString (String_ v)).
Proof.
  intros Hthrow. rewrite (GET_catch _ _ _ Hthrow).
  eexists. by repeat split.
Qed.

End Properties.

(** ** Further properties of the handler *)

Section Coverage.

Context {V D E : Type} (String_ : V -> string).
Implicit Types (env : Env V D E) (request : NextRequest) (session : Session).
Implicit Types (token message : string) (msgs : list MessageRef).

(** The [catch] clause reads the collaborators only for the clock. *)
Lemma catchBlock_now env env' (error : Thrown V) :
  now env = now env' -> catchBlock String_ env error = catchBlock String_ env' error.
Proof. intros Hnow. unfold catchBlock. by rewrite Hnow. Qed.

(** Every answer of the [catch] clause is an error envelope of the table. *)
Lemma catchBlock_envelope env (error : Thrown V) :
  let r := catchBlock String_ env error in
  is_Some (field (body r) "error") /\
  field (body r) "emails" = None /\
  field (body r) "totalFetched" = None /\
  field (body r) "timestamp" = Some (JString (now env)) /\
  exists code, field (body r) "code" = Some (JString code) /\
               In (code, status r) errorTable.
Proof.
  unfold catchBlock. destruct error as [message | v].
  - destruct (Js.includes message "401"); [| destruct (Js.includes message "403");
      [| destruct (Js.includes message "429"); [| destruct (Js.includes message "400");
      [| destruct (Js.includes message "500" || Js.includes message "5")]]]];
      (repeat split; [by eexists | eexists; split; [reflexivity | cbn; tauto]]).
  - repeat split; [by eexists | eexists; split; [reflexivity | cbn; tauto]].
Qed.

Lemma GET_session_throws env request (error : Thrown V) :
  getServerSession env = Throw error ->
  GET String_ env request = ([], Responds (catchBlock String_ env error)).
Proof.
  intros Hthrow. unfold GET, tryBlock, await, bind. by rewrite Hthrow.
Qed.

Lemma listingLimit_signed_in env request session token :
  getServerSession env = Return (Some session) ->
  Js.truthy (accessToken session) = Some token ->
  listingLimit (GET String_ env request).1 = Some (maxResults request).
Proof.
  intros Hsession Htoken. rewrite (GET_signed_in _ _ _ _ _ Hsession Htoken).
  cbv zeta.
  by destruct (fetchGmailMessages env token (maxResults request))
    as [[[[|msg msgs]|]]|e].
Qed.

(** X1: an [Error] thrown in the [try] block whose message contains "429"
    and neither "401" nor "403" is answered with status 429 and code
    RATE_LIMITED, and the envelope has no [details]. *)
Theorem rate_limited env request message :
  (tryBlock env request).2 = Throw (ThrownError message) ->
  Js.includes message "429" = true ->
  Js.includes message "401" = false ->
  Js.includes message "403" = false ->
  exists r,
    (GET String_ env request).2 = Responds r /\
    status r = 429%Z /\
    field (body r) "code" = Some (JString "RATE_LIMITED") /\
    field (body r) "details" = None.
Proof.
  intros Hthrow H429 H401 H403. rewrite (GET_catch _ _ _ _ Hthrow).
  unfold catchBlock. rewrite H401, H403, H429. eexists. by repeat split.
Qed.

(** X2: an [Error] whose message contains "400" and none of "401", "403",
    "429" is answered with status 400 and code BAD_REQUEST, and [details]
    is the upstream message itself. *)
Theorem bad_request_echoes_message env request message :
  (tryBlock env request).2 = Throw (ThrownError message) ->
  Js.includes message "400" = true ->
  Js.includes message "401" = false ->
  Js.includes message "403" = false ->
  Js.includes message "429" = false ->
  exists r,
    (GET String_ env request).2 = Responds r /\
    status r = 400%Z /\
    field (body r) "code" = Some (JString "BAD_REQUEST") /\
    field (body r) "details" = Some (JString message).
Proof.
  intros Hthrow H400 H401 H403 H429. rewrite (GET_catch _ _ _ _ Hthrow).
  unfold catchBlock. rewrite H401, H403, H429, H400. eexists. by repeat split.
Qed.

(** X3: an [Error] whose message contains none of "401", "403", "429",
    "400" and no "5" is answered with status 500 and code UNKNOWN_ERROR, and
    [details] is the upstream message itself. *)
Theorem unmatched_error_is_unknown env request message :
  (tryBlock env request).2 = Throw (ThrownError message) ->
  Js.includes message "401" = false ->
  Js.includes message "403" = false ->
  Js.includes message "429" = false ->
  Js.includes message "400" = false ->
  Js.includes message "5" = false ->
  exists r,
    (GET String_ env request).2 = Responds r /\
    status r = 500%Z /\
    field (body r) "code" = Some (JString "UNKNOWN_ERROR") /\
    field (body r) "details" = Some (JString message).
Proof.
  intros Hthrow H401 H403 H429 H400 H5. rewrite (GET_catch _ _ _ _ Hthrow).
  assert (Js.includes message "500" = false) as H500.
  { destruct (Js.includes message "500") eqn:H; [| done].
    apply includes_500_5 in H. congruence. }
  unfold catchBlock. rewrite H401, H403, H429, H400, H500, H5.
  eexists. by repeat split.
Qed.

(** X4: the code of the answer to an [Error] tells which needles its
    message holds: each code is given only when its own needle occurs and
    none of the needles tested before it does, and UNKNOWN_ERROR only when
    the message holds none of "401", "403", "429", "400", "5". *)
Theorem code_reveals_needles env request message r :
  (tryBlock env request).2 = Throw (ThrownError message) ->
  (GET String_ env request).2 = Responds r ->
  match field (body r) "code" with
  | Some (JString "TOKEN_EXPIRED") => Js.includes message "401" = true
  | Some (JString "PERMISSION_DENIED") =>
      Js.includes message "401" = false /\ Js.includes message "403" = true
  | Some (JString "RATE_LIMITED") =>
      Js.includes message "401" = false /\ Js.includes message "403" = false /\
      Js.includes message "429" = true
  | Some (JString "BAD_REQUEST") =>
      Js.includes message "401" = false /\ Js.includes message "403" = false /\
      Js.includes message "429" = false /\ Js.includes message "400" = true
  | Some (JString "SERVER_ERROR") =>
      Js.includes message "401" = false /\ Js.includes message "403" = false /\
      Js.includes message "429" = false /\ Js.includes message "400" = false /\
      Js.includes message "5" = true
  | Some (JString "UNKNOWN_ERROR") =>
      Js.includes message "401" = false /\ Js.includes message "403" = false /\
      Js.includes message "429" = false /\ Js.includes message "400" = false /\
      Js.includes message "5" = false
  | _ => False
  end.
Proof.
  intros Hthrow. rewrite (GET_catch _ _ _ _ Hthrow). intros [= <-].
  unfold catchBlock.
  destruct (Js.includes message "401") eqn:H401; [done |].
  destruct (Js.includes message "403") eqn:H403; [done |].
  destruct (Js.includes message "429") eqn:H429; [done |].
  destruct (Js.includes message "400") eqn:H400; [done |].
  destruct (Js.includes message "5") eqn:H5.
  - rewrite orb_true_r. done.
  - destruct (Js.includes message "500") eqn:H500.
    + apply includes_500_5 in H500. congruence.
    + done.
Qed.

(** X5: what session resolution throws is answered by the same [catch]
    clause as a failure of the listing call: no provider call is issued, and
    the answer is the one a signed-in request gets when its listing call
    throws the same value at the same time. *)
Theorem session_error_is_classified env env' request request' session token
    (error : Thrown V) :
  getServerSession env = Throw error ->
  getServerSession env' = Return (Some session) ->
  Js.truthy (accessToken session) = Some token ->
  fetchGmailMessages env' token (maxResults request') = Throw error ->
  now env = now env' ->
  (GET String_ env request).1 = [] /\
  (GET String_ env request).2 = (GET String_ env' request').2.
Proof.
  intros Hthrow Hsession Htoken Hlist Hnow.
  rewrite (GET_signed_in _ _ _ _ _ Hsession Htoken). cbv zeta. rewrite Hlist.
  rewrite (GET_session_throws _ _ _ Hthrow).
  by rewrite (catchBlock_now env env').
Qed.

(** X6: the handler issues no call to the mail provider exactly when the
    request does not pass both authentication gates (session resolution
    throws or yields null, or the access token is absent or empty). *)
Theorem provider_called_iff_signed_in env request :
  (GET String_ env request).1 = [] <-> ~ exists token, signedInAs env token.
Proof.
  unfold signedInAs.
  destruct (getServerSession env) as [[session|]|error] eqn:Hsession.
  - destruct (Js.truthy (accessToken session)) as [token|] eqn:Htoken.
    + rewrite (GET_signed_in _ _ _ _ _ Hsession Htoken). cbv zeta. split.
      * destruct (fetchGmailMessages env token (maxResults request))
          as [[[[|msg msgs]|]]|e]; discriminate.
      * intros Hno. destruct Hno. by exists token, session.
    + rewrite (GET_no_token _ _ _ _ Hsession Htoken). split; [| done].
      intros _ (token & session' & [= <-] & Htoken'). congruence.
  - rewrite (GET_no_session _ _ _ Hsession). split; [| done].
    intros _ (token & session' & [=] & _).
  - rewrite (GET_session_throws _ _ _ Hsession). split; [| done].
    intros _ (token & session' & [=] & _).
Qed.

(** X7: a signed-in request issues exactly one listing call, with the
    session's token and the computed limit, followed, when the listing
    returns references, by one detail call per reference in listing order
    with the same token; a listing that throws or is absent is followed by
    no call. *)
Theorem provider_calls_issued env request session token :
  getServerSession env = Return (Some session) ->
  Js.truthy (accessToken session) = Some token ->
  (GET String_ env request).1
  = ListCall token (maxResults request) ::
    match fetchGmailMessages env token (maxResults request) with
    | Return {| messages := Some msgs |} =>
        map (fun msg => GetCall token (msg_id msg)) msgs
    | _ => []
    end.
Proof.
  intros Hsession Htoken. rewrite (GET_signed_in _ _ _ _ _ Hsession Htoken).
  cbv zeta.
  by destruct (fetchGmailMessages env token (maxResults request))
    as [[[[|msg msgs]|]]|e].
Qed.

(** X8: once the listing has returned references, the handler gives no
    answer exactly when one of the per-message operations never settles:
    it waits for all of them, without timeout. *)
Theorem pending_iff_unsettled env request session token msgs :
  getServerSession env = Return (Some session) ->
  Js.truthy (accessToken session) = Some token ->
  fetchGmailMessages env token (maxResults request)
  = Return {| messages := Some msgs |} ->
  (GET String_ env request).2 = Pending
  <-> exists i, i < length msgs /\ i ∉ settleOrder env.
Proof.
  intros Hsession Htoken Hlist.
  rewrite (GET_signed_in _ _ _ _ _ Hsession Htoken). cbv zeta. rewrite Hlist.
  cbn [messages]. destruct msgs as [|msg msgs].
  - split; [done | intros (i & Hi & _); cbn in Hi; lia].
  - cbn [snd]. set (l := msg :: msgs).
    destruct (allSettled (settleOrder env) (length l)) eqn:Hall.
    + rewrite Promise_all_settled by (by rewrite length_map). split; [done |].
      intros (i & Hi & Hnin). destruct Hnin.
      by eapply allSettled_elem_of.
    + apply allSettled_false in Hall as (i & Hi & Hnin).
      rewrite (Promise_all_pending _ _ i) by (by rewrite ?length_map).
      split; [by exists i | done].
Qed.

(** X9: the provider calls and the answer do not depend on the order in
    which the per-message operations settle, as long as all of them do. *)
Theorem settle_order_is_irrelevant env request session token msgs (order : list nat) :
  getServerSession env = Return (Some session) ->
  Js.truthy (accessToken session) = Some token ->
  fetchGmailMessages env token (maxResults request)
  = Return {| messages := Some msgs |} ->
  allSettled (settleOrder env) (length msgs) = true ->
  allSettled order (length msgs) = true ->
  GET String_ (withSettleOrder env order) request = GET String_ env request.
Proof.
  intros Hsession Htoken Hlist Hall Hall'.
  rewrite (GET_signed_in _ (withSettleOrder env order) _ _ _ Hsession Htoken).
  rewrite (GET_signed_in _ env _ _ _ Hsession Htoken).
  cbv zeta. cbn [withSettleOrder fetchGmailMessages now settleOrder].
  rewrite Hlist. cbn [messages]. destruct msgs as [|msg msgs]; [done |].
  change (emailPromise (withSettleOrder env order)) with (emailPromise env).
  by rewrite !Promise_all_settled by (by rewrite length_map).
Qed.

(** X10: every answer is either a success envelope (status 200, no [error]
    and no [code], [emails] present and [totalFetched] equal to its length)
    or an error envelope (status 401, 403, 429, 400, 503 or 500, [error]
    present, neither [emails] nor [totalFetched]). *)
Theorem answer_is_success_or_error env request r :
  (GET String_ env request).2 = Responds r ->
  (status r = 200%Z /\
   field (body r) "error" = None /\ field (body r) "code" = None /\
   exists emails,
     field (body r) "emails" = Some (JArray emails) /\
     field (body r) "totalFetched" = Some (JNumber (Z.of_nat (length emails))))
  \/
  (In (status r) [401%Z; 403%Z; 429%Z; 400%Z; 503%Z; 500%Z] /\
   is_Some (field (body r) "error") /\
   field (body r) "emails" = None /\ field (body r) "totalFetched" = None).
Proof.
  assert (forall error,
    let r := catchBlock String_ env error in
    In (status r) [401%Z; 403%Z; 429%Z; 400%Z; 503%Z; 500%Z] /\
    is_Some (field (body r) "error") /\
    field (body r) "emails" = None /\ field (body r) "totalFetched" = None) as Hcatch.
  { intros error r0.
    destruct (catchBlock_envelope env error) as (He & Hm & Ht & _ & code & _ & Hin).
    repeat split; try done. fold r0 in Hin. cbn in Hin.
    destruct Hin as [[= _ <-]|[[= _ <-]|[[= _ <-]|[[= _ <-]|[[= _ <-]|[[= _ <-]|[]]]]]]];
      cbn; tauto. }
  destruct (getServerSession env) as [[session|]|error] eqn:Hsession.
  - destruct (Js.truthy (accessToken session)) as [token|] eqn:Htoken.
    + rewrite (GET_signed_in _ _ _ _ _ Hsession Htoken). cbv zeta.
      destruct (fetchGmailMessages env token (maxResults request))
        as [[[[|msg msgs]|]]|e]; cbn [snd messages].
      * intros [= <-]. left. repeat split. by exists [].
      * destruct (Promise_all _ _); [| done].
        intros [= <-]. left. repeat split. by eexists.
      * intros [= <-]. left. repeat split. by exists [].
      * intros [= <-]. right. apply Hcatch.
    + rewrite (GET_no_token _ _ _ _ Hsession Htoken). intros [= <-].
      right. repeat split; [cbn; tauto | by eexists].
  - rewrite (GET_no_session _ _ _ Hsession). intros [= <-].
    right. repeat split; [cbn; tauto | by eexists].
  - rewrite (GET_session_throws _ _ _ Hsession). intros [= <-].
    right. apply Hcatch.
Qed.

(** X11: an answer that carries a [code] carries it with the status of its
    row (TOKEN_EXPIRED 401, PERMISSION_DENIED 403, RATE_LIMITED 429,
    BAD_REQUEST 400, SERVER_ERROR 503, UNKNOWN_ERROR 500) and with a
    [timestamp]. *)
Theorem code_fixes_status env request r code :
  (GET String_ env request).2 = Responds r ->
  field (body r) "code" = Some (JString code) ->
  In (code, status r) errorTable /\
  field (body r) "timestamp" = Some (JString (now env)).
Proof.
  destruct (getServerSession env) as [[session|]|error] eqn:Hsession.
  - destruct (Js.truthy (accessToken session)) as [token|] eqn:Htoken.
    + rewrite (GET_signed_in _ _ _ _ _ Hsession Htoken). cbv zeta.
      destruct (fetchGmailMessages env token (maxResults request))
        as [[[[|msg msgs]|]]|e]; cbn [snd messages].
      * by intros [= <-].
      * destruct (Promise_all _ _); [| done]. by intros [= <-].
      * by intros [= <-].
      * intros [= <-] Hcode.
        destruct (catchBlock_envelope env e) as (_ & _ & _ & Hts & c & Hc & Hin).
        rewrite Hc in Hcode. by injection Hcode as <-.
    + rewrite (GET_no_token _ _ _ _ Hsession Htoken). by intros [= <-].
  - rewrite (GET_no_session _ _ _ Hsession). by intros [= <-].
  - rewrite (GET_session_throws _ _ _ Hsession).
    intros [= <-] Hcode.
    destruct (catchBlock_envelope env error) as (_ & _ & _ & Hts & c & Hc & Hin).
    rewrite Hc in Hcode. by injection Hcode as <-.
Qed.

(** X12: when the parameter is the decimal numeral of [n], possibly
    followed by text that starts with neither a digit nor [x], the limit
    passed to the listing call is the smaller of [n] and 20. *)
Theorem decimal_request_is_capped env request session token (n : nat) (rest : string) :
  getServerSession env = Return (Some session) ->
  Js.truthy (accessToken session) = Some token ->
  requested request = Some (decimal n ++ rest) ->
  endsNumeral rest = true ->
  listingLimit (GET String_ env request).1
  = Some (Js.Num (Z.min (Z.of_nat n) 20)).
Proof.
  intros Hsession Htoken Hreq Hrest.
  rewrite (listingLimit_signed_in _ _ _ _ Hsession Htoken).
  unfold maxResults. unfold requested in Hreq. rewrite Hreq.
  assert (Js.orElse (Some (decimal n ++ rest)) "10" = decimal n ++ rest) as ->.
  { unfold decimal. pose proof (to_uint_nonnil n) as Hnil.
    by destruct (Nat.to_uint n). }
  by rewrite parseInt_decimal.
Qed.


(** X14: a parameter whose first character is not white space, a sign or a
    decimal digit does not fall back to the default: the listing call
    receives [NaN]. *)
Theorem malformed_request_is_NaN env request session token (c : ascii) (rest : string) :
  getServerSession env = Return (Some session) ->
  Js.truthy (accessToken session) = Some token ->
  requested request = Some (String c rest) ->
  startsNumeral c = false ->
  listingLimit (GET String_ env request).1 = Some Js.NaN.
Proof.
  intros Hsession Htoken Hreq Hc.
  rewrite (listingLimit_signed_in _ _ _ _ Hsession Htoken).
  unfold maxResults. unfold requested in Hreq. rewrite Hreq.
  cbn [Js.orElse]. by rewrite parseInt_NaN.
Qed.

End Coverage.

(** ** The handler run on concrete requests *)

Example parseInt_1000 : Js.parseInt "1000" = Js.Num 1000.
Proof. reflexivity. Qed.

Example parseInt_leading_space : Js.parseInt "  -12px" = Js.Num (-12).
Proof. reflexivity. Qed.

Example parseInt_hex : Js.parseInt "0x1F" = Js.Num 31.
Proof. reflexivity. Qed.

Example parseInt_bare_prefix : Js.parseInt "0x" = Js.NaN.
Proof. reflexivity. Qed.

Example parseInt_letters : Js.parseInt "abc" = Js.NaN.
Proof. reflexivity. Qed.

(** A value that does not parse is passed on as [NaN], not as the default. *)
Example maxResults_malformed :
  maxResults (demoRequest (Some "ten")) = Js.NaN.
Proof. reflexivity. Qed.

Example maxResults_negative :
  maxResults (demoRequest (Some "-3")) = Js.Num (-3).
Proof. reflexivity. Qed.

(** The whole answer on the five-message listing: three entries in listing
    order, and the provider calls as issued. *)
Example GET_demoFanOut :
  GET Prim_String demoFanOut (demoRequest (Some "5"))
  = ([ListCall demoToken (Js.Num 5);
      GetCall demoToken "a1"; GetCall demoToken "x2"; GetCall demoToken "b3";
      GetCall demoToken "c?"; GetCall demoToken "d5"],
     Responds
       {| status := 200;
          body :=
            [("emails",
              JArray [ {| subject := "Subject: a1"; trustScore := 80 |};
                       {| subject := "Subject: b3"; trustScore := 80 |};
                       {| subject := "Subject: d5"; trustScore := 80 |} ]);
             ("totalFetched", JNumber 3);
             ("timestamp", JString "2024-05-01T10:00:00.000Z")] |}).
Proof. reflexivity. Qed.

(** A per-message operation that never settles leaves the request pending. *)
Example GET_never_settles :
  (GET Prim_String
     (demoEnv signedIn (Return {| messages := Some demoListing |}) [3; 0; 4; 2])
     (demoRequest None)).2 = Pending.
Proof. reflexivity. Qed.

Example GET_rate_limited :
  (GET Prim_String (demoFailing (ThrownError "Gmail API error: 429 Too Many Requests"))
     (demoRequest None)).2
  = Responds
      {| status := 429;
         body :=
           [("error", JString "Gmail API rate limit exceeded. Please try again in a few minutes.");
            ("code", JString "RATE_LIMITED");
            ("timestamp", JString "2024-05-01T10:00:00.000Z")] |}.
Proof. reflexivity. Qed.

Example GET_unclassified_error :
  (GET Prim_String (demoFailing (ThrownError "fetch failed")) (demoRequest None)).2
  = Responds
      {| status := 500;
         body :=
           [("error", JString "Failed to fetch emails from Gmail API");
            ("code", JString "UNKNOWN_ERROR");
            ("details", JString "fetch failed");
            ("timestamp", JString "2024-05-01T10:00:00.000Z")] |}.
Proof. reflexivity. Qed.

(** ** Instances of the theorems *)

Lemma partial_failure_is_dropped_witness :
  2 <= 5 /\
  exists r emails,
    (GET Prim_String demoFanOut (demoRequest (Some "5"))).2 = Responds r /\
    status r = 200%Z /\
    field (body r) "emails" = Some (JArray emails) /\
    length emails = 5 - 2 /\
    field (body r) "totalFetched" = Some (JNumber (Z.of_nat (5 - 2))) /\
    field (body r) "error" = None.
Proof.
  apply (partial_failure_is_dropped Prim_String demoFanOut (demoRequest (Some "5"))
           (demoSession (Some demoToken)) demoToken demoListing 5 2);
    reflexivity.
Defined.

Lemma maxResults_clamped_witness :
  exists limit,
    listingLimit (GET Prim_String demoEmpty (demoRequest (Some "1000"))).1
    = Some limit /\
    (forall z, limit = Js.Num z -> (z <= 20)%Z) /\
    (requested (demoRequest (Some "1000")) = Some "1000" -> limit = Js.Num 20) /\
    (requested (demoRequest (Some "1000")) = None -> limit = Js.Num 10) /\
    (requested (demoRequest (Some "1000")) = Some "" -> limit = Js.Num 10) /\
    (requested (demoRequest (Some "1000")) = Some "0" -> limit = Js.Num 0).
Proof.
  apply (maxResults_clamped Prim_String demoEmpty (demoRequest (Some "1000"))
           (demoSession (Some demoToken)) demoToken);
    reflexivity.
Defined.

(** Requesting 0 passes 0 to the listing call, not the default 10. *)
Lemma requesting_0_is_not_defaulted :
  listingLimit (GET Prim_String demoEmpty (demoRequest (Some "0"))).1
  = Some (Js.Num 0) /\
  listingLimit (GET Prim_String demoEmpty (demoRequest (Some "0"))).1
  <> Some (Js.Num 10).
Proof. split; [reflexivity | discriminate]. Qed.

Lemma bare_5_is_server_error_witness :
  exists r,
    (GET Prim_String (demoFailing (ThrownError "Quota exceeded: 25 requests"))
       (demoRequest None)).2 = Responds r /\
    status r = 503%Z /\
    field (body r) "code" = Some (JString "SERVER_ERROR").
Proof.
  apply (bare_5_is_server_error Prim_String
           (demoFailing (ThrownError "Quota exceeded: 25 requests"))
           (demoRequest None) (demoSession (Some demoToken)) demoToken
           "Quota exceeded: 25 requests");
    reflexivity.
Defined.

Lemma first_match_wins_401_witness :
  exists r,
    (GET Prim_String (demoFailing (ThrownError "403 Forbidden after 401 Unauthorized"))
       (demoRequest None)).2 = Responds r /\
    status r = 401%Z /\
    field (body r) "code" = Some (JString "TOKEN_EXPIRED").
Proof.
  apply (first_match_wins_401 Prim_String
           (demoFailing (ThrownError "403 Forbidden after 401 Unauthorized"))
           (demoRequest None) (demoSession (Some demoToken)) demoToken
           "403 Forbidden after 401 Unauthorized");
    reflexivity.
Defined.

Lemma emails_in_listing_order_witness :
  exists r emails,
    (GET Prim_String demoFanOut (demoRequest None)).2 = Responds r /\
    field (body r) "emails" = Some (JArray emails) /\
    Forall2 (fun msg email => fetchAndAnalyze demoFanOut demoToken msg = Return email)
      (List.filter
         (fun msg => negb (throws (fetchAndAnalyze demoFanOut demoToken msg)))
         demoListing)
      emails.
Proof.
  apply (emails_in_listing_order Prim_String demoFanOut (demoRequest None)
           (demoSession (Some demoToken)) demoToken demoListing);
    reflexivity.
Defined.

Lemma empty_listing_succeeds_witness :
  exists r explanation,
    (GET Prim_String demoEmpty (demoRequest None)).2 = Responds r /\
    status r = 200%Z /\
    field (body r) "emails" = Some (JArray []) /\
    field (body r) "totalFetched" = Some (JNumber 0) /\
    field (body r) "message" = Some (JString explanation) /\
    field (body r) "error" = None /\
    field (body r) "code" = None.
Proof.
  apply (empty_listing_succeeds Prim_String demoEmpty (demoRequest None)
           (demoSession (Some demoToken)) demoToken {| messages := Some [] |});
    [reflexivity | reflexivity | reflexivity | right; reflexivity].
Defined.

Lemma forbidden_is_permission_denied_witness :
  exists r,
    (GET Prim_String (demoFailing (ThrownError "Gmail API error: 403 Forbidden"))
       (demoRequest None)).2 = Responds r /\
    status r = 403%Z /\
    field (body r) "code" = Some (JString "PERMISSION_DENIED").
Proof.
  apply (forbidden_is_permission_denied Prim_String
           (demoFailing (ThrownError "Gmail API error: 403 Forbidden"))
           (demoRequest None) (demoSession (Some demoToken)) demoToken
           "Gmail API error: 403 Forbidden");
    reflexivity.
Defined.

Lemma no_session_unauthenticated_witness :
  exists r,
    (GET Prim_String demoNoSession (demoRequest None)).2 = Responds r /\
    status r = 401%Z /\
    is_Some (field (body r) "error") /\
    field (body r) "code" = None.
Proof.
  apply (no_session_unauthenticated Prim_String demoNoSession (demoRequest None)).
  reflexivity.
Defined.

Lemma missing_token_unauthenticated_witness :
  exists r message,
    (GET Prim_String demoNoToken (demoRequest None)).2 = Responds r /\
    status r = 401%Z /\
    field (body r) "code" = None /\
    field (body r) "error" = Some (JString message) /\
    forall (env' : Env Prim string Analyzed) request' r',
      getServerSession env' = Return None ->
      (GET Prim_String env' request').2 = Responds r' ->
      field (body r') "error" <> Some (JString message).
Proof.
  apply (missing_token_unauthenticated Prim_String demoNoToken (demoRequest None)
           (demoSession (Some "")));
    [reflexivity | right; reflexivity].
Defined.

Lemma non_error_is_unknown_witness :
  exists r,
    (GET Prim_String (demoFailing (ThrownValue PNull)) (demoRequest None)).2
    = Responds r /\
    status r = 500%Z /\
    field (body r) "code" = Some (JString "UNKNOWN_ERROR") /\
    field (body r) "details" = Some (JString "null").
Proof.
  apply (non_error_is_unknown Prim_String (demoFailing (ThrownValue PNull))
           (demoRequest None) PNull).
  reflexivity.
Defined.

Lemma rate_limited_witness :
  exists r,
    (GET Prim_String
       (demoFailing (ThrownError "Gmail API error: 429 Too Many Requests"))
       (demoRequest None)).2 = Responds r /\
    status r = 429%Z /\
    field (body r) "code" = Some (JString "RATE_LIMITED") /\
    field (body r) "details" = None.
Proof.
  apply (rate_limited Prim_String
           (demoFailing (ThrownError "Gmail API error: 429 Too Many Requests"))
           (demoRequest None) "Gmail API error: 429 Too Many Requests");
    reflexivity.
Defined.

Lemma bad_request_echoes_message_witness :
  exists r,
    (GET Prim_String (demoFailing (ThrownError "Gmail API error: 400 Bad Request"))
       (demoRequest None)).2 = Responds r /\
    status r = 400%Z /\
    field (body r) "code" = Some (JString "BAD_REQUEST") /\
    field (body r) "details" = Some (JString "Gmail API error: 400 Bad Request").
Proof.
  apply (bad_request_echoes_message Prim_String
           (demoFailing (ThrownError "Gmail API error: 400 Bad Request"))
           (demoRequest None) "Gmail API error: 400 Bad Request");
    reflexivity.
Defined.

Lemma unmatched_error_is_unknown_witness :
  exists r,
    (GET Prim_String (demoFailing (ThrownError "Gmail API error: 404 Not Found"))
       (demoRequest None)).2 = Responds r /\
    status r = 500%Z /\
    field (body r) "code" = Some (JString "UNKNOWN_ERROR") /\
    field (body r) "details" = Some (JString "Gmail API error: 404 Not Found").
Proof.
  apply (unmatched_error_is_unknown Prim_String
           (demoFailing (ThrownError "Gmail API error: 404 Not Found"))
           (demoRequest None) "Gmail API error: 404 Not Found");
    reflexivity.
Defined.

Lemma code_reveals_needles_witness :
  Js.includes "Gmail API error: 403 Forbidden" "401" = false /\
  Js.includes "Gmail API error: 403 Forbidden" "403" = true.
Proof.
  exact (code_reveals_needles Prim_String
           (demoFailing (ThrownError "Gmail API error: 403 Forbidden"))
           (demoRequest None) "Gmail API error: 403 Forbidden"
           (catchBlock Prim_String
              (demoFailing (ThrownError "Gmail API error: 403 Forbidden"))
              (ThrownError "Gmail API error: 403 Forbidden"))
           eq_refl eq_refl).
Defined.

Lemma session_error_is_classified_witness :
  (GET Prim_String (demoSessionFails (ThrownError "fetch failed: 401"))
     (demoRequest None)).1 = [] /\
  (GET Prim_String (demoSessionFails (ThrownError "fetch failed: 401"))
     (demoRequest None)).2
  = (GET Prim_String (demoFailing (ThrownError "fetch failed: 401"))
       (demoRequest (Some "5"))).2.
Proof.
  apply (session_error_is_classified Prim_String
           (demoSessionFails (ThrownError "fetch failed: 401"))
           (demoFailing (ThrownError "fetch failed: 401"))
           (demoRequest None) (demoRequest (Some "5"))
           (demoSession (Some demoToken)) demoToken
           (ThrownError "fetch failed: 401"));
    reflexivity.
Defined.

Lemma provider_calls_issued_witness :
  (GET Prim_String demoStuck (demoRequest (Some "5"))).1
  = ListCall demoToken (maxResults (demoRequest (Some "5"))) ::
    match fetchGmailMessages demoStuck demoToken (maxResults (demoRequest (Some "5"))) with
    | Return {| messages := Some msgs |} =>
        map (fun msg => GetCall demoToken (msg_id msg)) msgs
    | _ => []
    end.
Proof.
  apply (provider_calls_issued Prim_String demoStuck (demoRequest (Some "5"))
           (demoSession (Some demoToken)) demoToken);
    reflexivity.
Defined.

Lemma pending_iff_unsettled_witness :
  (GET Prim_String demoStuck (demoRequest None)).2 = Pending
  <-> exists i, i < length demoListing /\ i ∉ settleOrder demoStuck.
Proof.
  apply (pending_iff_unsettled Prim_String demoStuck (demoRequest None)
           (demoSession (Some demoToken)) demoToken demoListing);
    reflexivity.
Defined.

Lemma settle_order_is_irrelevant_witness :
  GET Prim_String (withSettleOrder demoFanOut [0; 1; 2; 3; 4]) (demoRequest None)
  = GET Prim_String demoFanOut (demoRequest None).
Proof.
  apply (settle_order_is_irrelevant Prim_String demoFanOut (demoRequest None)
           (demoSession (Some demoToken)) demoToken demoListing [0; 1; 2; 3; 4]);
    reflexivity.
Defined.

Lemma answer_is_success_or_error_witness :
  (status demoAnswer = 200%Z /\
   field (body demoAnswer) "error" = None /\ field (body demoAnswer) "code" = None /\
   exists emails,
     field (body demoAnswer) "emails" = Some (JArray emails) /\
     field (body demoAnswer) "totalFetched"
     = Some (JNumber (Z.of_nat (length emails))))
  \/
  (In (status demoAnswer) [401%Z; 403%Z; 429%Z; 400%Z; 503%Z; 500%Z] /\
   is_Some (field (body demoAnswer) "error") /\
   field (body demoAnswer) "emails" = None /\
   field (body demoAnswer) "totalFetched" = None).
Proof.
  apply (answer_is_success_or_error Prim_String demoFanOut (demoRequest (Some "5"))
           demoAnswer).
  reflexivity.
Defined.

Lemma code_fixes_status_witness :
  In ("SERVER_ERROR",
      status (catchBlock Prim_String (demoFailing (ThrownError "Quota exceeded: 25 requests"))
                (ThrownError "Quota exceeded: 25 requests")))
    errorTable /\
  field (body (catchBlock Prim_String
                 (demoFailing (ThrownError "Quota exceeded: 25 requests"))
                 (ThrownError "Quota exceeded: 25 requests"))) "timestamp"
  = Some (JString (now (demoFailing (ThrownError "Quota exceeded: 25 requests")))).
Proof.
  apply (code_fixes_status Prim_String
           (demoFailing (ThrownError "Quota exceeded: 25 requests"))
           (demoRequest None));
    reflexivity.
Defined.

Lemma decimal_request_is_capped_witness :
  listingLimit (GET Prim_String demoEmpty (demoRequest (Some "50px"))).1
  = Some (Js.Num (Z.min (Z.of_nat 50) 20)).
Proof.
  apply (decimal_request_is_capped Prim_String demoEmpty (demoRequest (Some "50px"))
           (demoSession (Some demoToken)) demoToken 50 "px");
    reflexivity.
Defined.


Lemma malformed_request_is_NaN_witness :
  listingLimit (GET Prim_String demoEmpty (demoRequest (Some "ten"))).1
  = Some Js.NaN.
Proof.
  apply (malformed_request_is_NaN Prim_String demoEmpty (demoRequest (Some "ten"))
           (demoSession (Some demoToken)) demoToken "t" "en");
    reflexivity.
Defined.
